(** * Component tagging and pick resolution of the 3D kitchen scene

    A shallow embedding of [assets/js/main.js]: the tag-attachment
    operation [createComponent], the click handler [onMouseClick] with the
    two display operations it calls, and the resize handler
    [onWindowResize].  JavaScript numbers are read as exact rationals. *)

From Stdlib Require Import List String Bool QArith Sorted Permutation Lia Lqa.
Import ListNotations.

(** ** JavaScript values

    The metadata fields are dynamically typed.  Only the kinds of value
    that the scene code stores in them, or that a missing property yields,
    are modelled. *)

Module JS.

Inductive value : Type :=
| undefined
| null
| VBool (b : bool)
| VString (s : string).

(** ToBoolean. *)
Definition truthy (v : value) : bool :=
  match v with
  | undefined | null => false
  | VBool b => b
  | VString s => negb (String.eqb s EmptyString)
  end.

Definition nullish (v : value) : bool :=
  match v with
  | undefined | null => true
  | _ => false
  end.

(** [a ?? b] *)
Definition coalesce (a b : value) : value := if nullish a then b else a.

(** [a || b] *)
Definition or (a b : value) : value := if truthy a then a else b.

(** ToString. *)
Definition toString (v : value) : string :=
  match v with
  | undefined => "undefined"
  | null => "null"
  | VBool true => "true"
  | VBool false => "false"
  | VString s => s
  end.

(** ["literal" + v] *)
Definition concat (s : string) (v : value) : string :=
  String.append s (toString v).

(** The setter of [Node.textContent]: [null] is written as the empty
    string, anything else through ToString. *)
Definition textContent (v : value) : string :=
  match v with
  | null => EmptyString
  | _ => toString v
  end.

End JS.

Notation "a ?? b" := (JS.coalesce a b) (at level 60, right associativity).

(** ** Data *)

Module Vector2.
Record t : Type := mk { x : Q; y : Q }.
End Vector2.

Module Vector3.
Record t : Type := mk { x : Q; y : Q; z : Q }.
End Vector3.

(** The [details] argument of [createComponent]: an object literal with any
    of the properties [description], [desc] and [specs]; an absent property
    reads as [undefined]. *)
Module Details.
Record t : Type := mk { description : JS.value; desc : JS.value; specs : JS.value }.
End Details.

(** The [userData] bag of a node.  [{}] is [UserData.empty]. *)
Module UserData.
Record t : Type := mk {
  isComponent : JS.value;
  name : JS.value;
  details : JS.value;
  desc : JS.value;
  specs : JS.value }.

Definition empty : t :=
  mk JS.undefined JS.undefined JS.undefined JS.undefined JS.undefined.
End UserData.

(** [THREE.OrthographicCamera]: the frustum planes and the placement that
    the orbit controls move. *)
Record Camera : Type := mkCamera {
  left : Q;
  right : Q;
  top : Q;
  bottom : Q;
  near : Q;
  far : Q;
  cameraPosition : Vector3.t }.

(** What [raycaster.setFromCamera(mouse, camera)] fixes: the ray is a
    function of the pointer's normalized device coordinates and of the
    camera. *)
Record Ray : Type := mkRay { coords : Vector2.t; rayCamera : Camera }.

Definition setFromCamera (mouse : Vector2.t) (camera : Camera) : Ray :=
  mkRay mouse camera.

(** A geometry, as picking observes it: the distances from the ray origin
    at which the ray meets it, once the mesh is placed in the world. *)
Definition Geometry : Type := Ray -> list Q.

Definition Material : Type := string.

(** [THREE.Object3D], with the [raycast] method that [THREE.Mesh]
    overrides.  The parent of a node is the node whose [children] holds
    it. *)
#[warnings="-register-all"]
Inductive Object3D : Type := mkObject3D {
  position : Vector3.t;
  visible : bool;
  castShadow : bool;
  receiveShadow : bool;
  material : option Material;
  userData : UserData.t;
  raycast : Geometry;
  children : list Object3D }.

(** [new THREE.Mesh(geometry, material)] *)
Definition Mesh (geometry : Geometry) (material : Material) : Object3D :=
  {| position := Vector3.mk 0 0 0;
     visible := true;
     castShadow := false;
     receiveShadow := false;
     material := Some material;
     userData := UserData.empty;
     raycast := geometry;
     children := [] |}.

Arguments Mesh geometry material%_string.

(** [new THREE.Group()]: the inherited [raycast] of [Object3D] does
    nothing. *)
Definition Group : Object3D :=
  {| position := Vector3.mk 0 0 0;
     visible := true;
     castShadow := false;
     receiveShadow := false;
     material := None;
     userData := UserData.empty;
     raycast := fun _ => [];
     children := [] |}.

Definition set_position (p : Vector3.t) (o : Object3D) : Object3D :=
  mkObject3D p (visible o) (castShadow o) (receiveShadow o) (material o)
             (userData o) (raycast o) (children o).

Definition set_visible (b : bool) (o : Object3D) : Object3D :=
  mkObject3D (position o) b (castShadow o) (receiveShadow o) (material o)
             (userData o) (raycast o) (children o).

Definition set_shadows (c r : bool) (o : Object3D) : Object3D :=
  mkObject3D (position o) (visible o) c r (material o)
             (userData o) (raycast o) (children o).

Definition set_userData (u : UserData.t) (o : Object3D) : Object3D :=
  mkObject3D (position o) (visible o) (castShadow o) (receiveShadow o)
             (material o) u (raycast o) (children o).

(** [parent.add(child)] *)
Definition add (child : Object3D) (parent : Object3D) : Object3D :=
  mkObject3D (position parent) (visible parent) (castShadow parent)
             (receiveShadow parent) (material parent) (userData parent)
             (raycast parent) (children parent ++ [child]).

(** ** Tag attachment *)

(** [details?.p]: [undefined] when [details] itself is nullish. *)
Definition optChain (details : option Details.t) (p : Details.t -> JS.value)
  : JS.value :=
  match details with
  | Some d => p d
  | None => JS.undefined
  end.

Definition createComponent (geometry : Geometry) (material : Material)
           (position : Vector3.t) (name : JS.value)
           (details : option Details.t) : Object3D :=
  let mesh := Mesh geometry material in
  let mesh := set_position position mesh in
  let mesh := set_shadows true true mesh in
  let description :=
    optChain details Details.description ??
    optChain details Details.desc ?? (JS.VString EmptyString) in
  let specs := optChain details Details.specs ?? JS.VString EmptyString in
  set_userData
    {| UserData.isComponent := JS.VBool true;
       UserData.name := name;
       UserData.details := description;
       UserData.desc := JS.undefined;
       UserData.specs := specs |}
    mesh.

Arguments createComponent geometry material%_string position name details.

(** ** Ray intersection *)

(** An entry of the list that the raycaster returns.  [object.parent] is
    carried by the entry: [None] is a [null] parent. *)
Record Intersection : Type := mkIntersection {
  distance : Q;
  object : Object3D;
  parent : option Object3D }.

(** Modelled from the spec: [THREE.Raycaster.intersectObjects], of the
    renderer library, is not part of the sources.  Sections 4.2 and 6 give
    its contract: every node of the tree is tested, recursing into groups;
    a node whose visibility flag is off is left out of hit-testing; the
    entries come back ordered by distance, nearest first. *)
Fixpoint intersectObject (ray : Ray) (parent : option Object3D)
         (object : Object3D) {struct object} : list Intersection :=
  (if visible object
   then map (fun d => mkIntersection d object parent) (raycast object ray)
   else [])
  ++ flat_map (intersectObject ray (Some object)) (children object).

(** Modelled from the spec: the order of the returned list, by distance
    ascending (section 4.2, step 4); the library's comparison is not part
    of the sources.  [ascSort a b] says that [a] may stay before [b]. *)
Definition ascSort (a b : Intersection) : bool :=
  Qle_bool (distance a) (distance b).

(** Modelled from the spec: the sort behind that order, which is not part
    of the sources; a stable insertion sort, so that entries at the same
    distance keep the order of the traversal.  [insert] puts an entry
    before the first one that is not nearer. *)
Fixpoint insert (i : Intersection) (l : list Intersection)
  : list Intersection :=
  match l with
  | [] => [i]
  | j :: l' => if ascSort i j then i :: l else j :: insert i l'
  end.

(** Modelled from the spec: the list ordered by distance, nearest first. *)
Fixpoint sort (l : list Intersection) : list Intersection :=
  match l with
  | [] => []
  | i :: l' => insert i (sort l')
  end.

(** Modelled from the spec: [raycaster.intersectObjects(scene.children,
    true)], of the renderer library, which is not part of the sources; the
    traversal above over the children of [scene], whose parent is the
    scene, then the sort. *)
Definition intersectObjects (ray : Ray) (scene : Object3D)
  : list Intersection :=
  sort (flat_map (intersectObject ray (Some scene)) (children scene)).

(** [Object3D.traverse]: a node and all its descendants. *)
Fixpoint traverse (o : Object3D) : list Object3D :=
  o :: flat_map traverse (children o).

(** ** The page and the globals *)

(** [DOMTokenList.add] and [DOMTokenList.remove] on a class list. *)
Definition classList_add (token : string) (l : list string) : list string :=
  if existsb (String.eqb token) l then l else l ++ [token].

Definition classList_remove (token : string) (l : list string)
  : list string :=
  filter (fun c => negb (String.eqb token c)) l.

Definition classList_contains (token : string) (l : list string) : bool :=
  existsb (String.eqb token) l.

(** The four elements of the page that the script holds: the class list of
    [#component-details] and the text of the three detail lines. *)
Record Document : Type := mkDocument {
  infoPanel : list string;
  detailName : string;
  detailDesc : string;
  detailSpecs : string }.

Arguments mkDocument infoPanel%_list detailName%_string detailDesc%_string
  detailSpecs%_string.

Record Window : Type := mkWindow { innerWidth : Q; innerHeight : Q }.

Record MouseEvent : Type := mkMouseEvent { clientX : Q; clientY : Q }.

(** Everything the handlers read or write. *)
Record World : Type := mkWorld {
  window : Window;
  document : Document;
  scene : Object3D;
  camera : Camera;
  rendererSize : Q * Q;
  raycaster : option Ray;
  mouse : Vector2.t }.

Definition frustumSize : Q := 16.
Definition halfFrustum : Q := frustumSize / 2.

(** A handler either returns or throws. *)
Inductive Completion (A : Type) : Type :=
| Normal (a : A)
| Throw (error : string).

Arguments Normal {A} a.
Arguments Throw {A} error.

(** ** Display *)

Definition displayComponentInfo (data : UserData.t) (d : Document)
  : Document :=
  {| detailName :=
       JS.textContent (JS.or (UserData.name data) (JS.VString "Component"));
     detailDesc :=
       JS.textContent
         (JS.or (JS.or (UserData.details data) (UserData.desc data))
                (JS.VString EmptyString));
     detailSpecs :=
       JS.concat "Specifications: "
                 (JS.or (UserData.specs data) (JS.VString EmptyString));
     infoPanel := classList_add "visible" (infoPanel d) |}.

Definition hideComponentInfo (d : Document) : Document :=
  {| detailName := detailName d;
     detailDesc := detailDesc d;
     detailSpecs := detailSpecs d;
     infoPanel := classList_remove "visible" (infoPanel d) |}.

(** ** Pick resolution *)

(** The predicate of the filter:
    [i.object.userData.isComponent ||
     (i.object.parent && i.object.parent.userData.isComponent)]. *)
Definition clickable (i : Intersection) : JS.value :=
  JS.or (UserData.isComponent (userData (object i)))
        (match parent i with
         | None => JS.null
         | Some p => UserData.isComponent (userData p)
         end).

Definition isClickable (i : Intersection) : bool := JS.truthy (clickable i).

(** The body of the [if]: the [userData] handed to the display, [None] when
    the filtered list is empty.  Reading [userData] of a [null] parent
    throws. *)
Definition resolve (intersects : list Intersection)
  : Completion (option UserData.t) :=
  match intersects with
  | i :: _ =>
      let object := object i in
      if JS.truthy (UserData.isComponent (userData object))
      then Normal (Some (userData object))
      else match parent i with
           | Some p => Normal (Some (userData p))
           | None => Throw "TypeError"
           end
  | [] => Normal None
  end.

(** The pointer in normalized device coordinates. *)
Definition ndc (event : MouseEvent) (win : Window) : Vector2.t :=
  {| Vector2.x := (clientX event / innerWidth win) * 2 - 1;
     Vector2.y := - (clientY event / innerHeight win) * 2 + 1 |}.

(** The filtered intersection list of a click. *)
Definition intersects (event : MouseEvent) (w : World) : list Intersection :=
  filter isClickable
         (intersectObjects (setFromCamera (ndc event (window w)) (camera w))
                           (scene w)).

(** The tag a click resolves to. *)
Definition pick (event : MouseEvent) (w : World)
  : Completion (option UserData.t) :=
  resolve (intersects event w).

Definition onMouseClick (event : MouseEvent) (w : World) : Completion World :=
  let mouse := ndc event (window w) in
  let ray := setFromCamera mouse (camera w) in
  let update (d : Document) : World :=
    {| window := window w;
       document := d;
       scene := scene w;
       camera := camera w;
       rendererSize := rendererSize w;
       raycaster := Some ray;
       mouse := mouse |} in
  match resolve (filter isClickable (intersectObjects ray (scene w))) with
  | Normal (Some userData) =>
      Normal (update (displayComponentInfo userData (document w)))
  | Normal None => Normal (update (hideComponentInfo (document w)))
  | Throw e => Throw e
  end.

(** ** Resize *)

Definition onWindowResize (w : World) : World :=
  let newWidth := innerWidth (window w) in
  let newHeight := innerHeight (window w) in
  let newAspect := newWidth / newHeight in
  {| window := window w;
     document := document w;
     scene := scene w;
     camera :=
       {| left := - halfFrustum * newAspect;
          right := halfFrustum * newAspect;
          top := halfFrustum;
          bottom := - halfFrustum;
          near := near (camera w);
          far := far (camera w);
          cameraPosition := cameraPosition (camera w) |};
     rendererSize := (newWidth, newHeight);
     raycaster := raycaster w;
     mouse := mouse w |}.

(** ** The selection state that the page shows *)

Inductive SelectionState : Type :=
| Empty
| Showing (name details specsLine : string).

Definition selection (d : Document) : SelectionState :=
  if classList_contains "visible" (infoPanel d)
  then Showing (detailName d) (detailDesc d) (detailSpecs d)
  else Empty.

(** ** The scene of the kitchen: the parts the properties speak of *)

Section Kitchen.

(** The shapes of the meshes involved, as rays meet them. *)
Variable windowFrameGeometry : Geometry.
Variable paneGeometry : nat -> nat -> Geometry.
Variable windowComponentGeometry : Geometry.
Variable kettleGeometry : Geometry.
Variable cabinetGeometry : Geometry.
Variable counterGeometry : Geometry.

Definition roomWidth : Q := 14.
Definition roomDepth : Q := 12.
Definition wallHeight : Q := 7.
Definition cabinetHeight : Q := 1.5.
Definition counterHeight : Q := 0.1.
Definition cabinetDepth : Q := 2.0.
Definition counterTopY : Q := cabinetHeight + counterHeight / 2.
Definition backRunWidth : Q := 7.0.
Definition backRunX : Q := - 1.0.
Definition backRunZ : Q := - roomDepth / 2 + cabinetDepth / 2.
Definition sinkX : Q := backRunX + backRunWidth / 2 - 1.2.

Definition windowDetails : Details.t :=
  {| Details.description :=
       JS.VString
         "Multi-pane crittall-style window providing ample natural light.";
     Details.desc := JS.undefined;
     Details.specs :=
       JS.VString "Dimensions: 2.5 x 4.0 units | Frame: Light Blue Steel" |}.

(** [createWindow()]: returns the group and adds the invisible tag-holder
    to the scene.  The panes hang under the main frame, which hangs under
    the group. *)
Definition createWindow (scene : Object3D) : Object3D * Object3D :=
  let group := Group in
  let mainFrame := Mesh windowFrameGeometry "matWindowFrame" in
  let panes :=
    flat_map (fun i => map (fun j => Mesh (paneGeometry i j) "paneMat")
                           (seq 0 4))
             (seq 0 3) in
  let mainFrame := fold_left (fun frame pane => add pane frame) panes mainFrame in
  let group := add mainFrame group in
  let group :=
    set_position
      (Vector3.mk (roomWidth / 2 - 2.3) (wallHeight / 2) (- roomDepth / 2 + 0.1))
      group in
  let windowComponent :=
    createComponent windowComponentGeometry "matWindowFrame" (position group)
                    (JS.VString "Large Kitchen Window") (Some windowDetails) in
  let windowComponent := set_visible false windowComponent in
  let group := set_userData (userData windowComponent) group in
  let scene := add windowComponent scene in
  (group, scene).

(** [scene.add(createWindow())] *)
Definition addWindow (scene : Object3D) : Object3D :=
  let (group, scene) := createWindow scene in
  add group scene.

Definition baseCabinetBack : Object3D :=
  createComponent cabinetGeometry "matCabinetBase"
    (Vector3.mk backRunX (cabinetHeight / 2) backRunZ)
    (JS.VString "Back Base Cabinets")
    (Some {| Details.description := JS.undefined;
             Details.desc := JS.VString "Base cabinets.";
             Details.specs := JS.VString "Color: Dark Slate" |}).

Definition counterBack : Object3D :=
  createComponent counterGeometry "matGranite"
    (Vector3.mk backRunX counterTopY backRunZ)
    (JS.VString "Back Countertop (Granite)")
    (Some {| Details.description := JS.undefined;
             Details.desc := JS.VString "Granite countertop.";
             Details.specs := JS.VString "Finish: Polished Granite" |}).

Definition kettle : Object3D :=
  createComponent kettleGeometry "matAccentBlue"
    (Vector3.mk (sinkX + 0.9) (counterTopY + 0.11) (backRunZ + 0.05))
    (JS.VString "Kettle")
    (Some {| Details.description := JS.undefined;
             Details.desc := JS.VString "Electric kettle.";
             Details.specs := JS.VString "Color: Blue" |}).

End Kitchen.

(** [new THREE.Scene()] *)
Definition Scene : Object3D := Group.

(** ** Induction over the scene tree *)

Section Object3D_induction.

Variable P : Object3D -> Prop.
Hypothesis step : forall o, Forall P (children o) -> P o.

Fixpoint Object3D_tree_ind (o : Object3D) : P o :=
  match o as o0 return P o0 with
  | mkObject3D pos v cs rs m u r ch =>
      step (mkObject3D pos v cs rs m u r ch)
           ((fix all (l : list Object3D) : Forall P l :=
               match l with
               | [] => Forall_nil P
               | c :: l' => Forall_cons c (Object3D_tree_ind c) (all l')
               end) ch)
  end.

End Object3D_induction.

(** ** Start-up and the two registered handlers *)

(** [init], as far as the handlers see its result.  The constants
    [width], [height] and [aspect] are read when the script is evaluated,
    from the viewport as it is then, [measured]; [init] runs later, at
    [window.onload], when the viewport is [win], and builds the camera and
    sizes the renderer from the constants.  The raycaster and the pointer
    are fresh, the scene is the one [buildKitchenette] has filled and the
    page is the one the script found. *)
Definition init (measured win : Window) (page : Document)
           (kitchenette : Object3D) : World :=
  let width := innerWidth measured in
  let height := innerHeight measured in
  let aspect := width / height in
  {| window := win;
     document := page;
     scene := kitchenette;
     camera :=
       {| left := - halfFrustum * aspect;
          right := halfFrustum * aspect;
          top := halfFrustum;
          bottom := - halfFrustum;
          near := 0.1;
          far := 1000;
          cameraPosition := Vector3.mk 12 12 12 |};
     rendererSize := (width, height);
     raycaster := None;
     mouse := Vector2.mk 0 0 |}.

(** The events [init] registers a handler for.  A resize event comes with
    the new inner size of the window, which the host has set before the
    handler runs. *)
Inductive Event : Type :=
| Click (event : MouseEvent)
| Resize (width height : Q).

Definition set_window (win : Window) (w : World) : World :=
  {| window := win;
     document := document w;
     scene := scene w;
     camera := camera w;
     rendererSize := rendererSize w;
     raycaster := raycaster w;
     mouse := mouse w |}.

(** [window.addEventListener('click', onMouseClick)] and
    [window.addEventListener('resize', onWindowResize)]. *)
Definition dispatch (ev : Event) (w : World) : Completion World :=
  match ev with
  | Click event => onMouseClick event w
  | Resize width height =>
      Normal (onWindowResize (set_window (mkWindow width height) w))
  end.

(** The handlers run to completion one after the other; the run is cut at
    the first error that a handler lets escape. *)
Fixpoint run (events : list Event) (w : World) : Completion World :=
  match events with
  | [] => Normal w
  | ev :: events' =>
      match dispatch ev w with
      | Normal w' => run events' w'
      | Throw e => Throw e
      end
  end.

Definition isResize (ev : Event) : Prop :=
  match ev with
  | Click _ => False
  | Resize _ _ => True
  end.

Definition isClick (ev : Event) : Prop :=
  match ev with
  | Click _ => True
  | Resize _ _ => False
  end.

(** The height that a resize event announces is positive. *)
Definition properResize (ev : Event) : Prop :=
  match ev with
  | Click _ => True
  | Resize _ height => 0 < height
  end.

(** The camera's frustum and the renderer's size are those of the current
    viewport. *)
Definition inSync (w : World) : Prop :=
  let aspect := innerWidth (window w) / innerHeight (window w) in
  left (camera w) = - halfFrustum * aspect /\
  right (camera w) = halfFrustum * aspect /\
  top (camera w) = halfFrustum /\
  bottom (camera w) = - halfFrustum /\
  rendererSize w = (innerWidth (window w), innerHeight (window w)).

(** A property of an object literal that is absent or holds a string. *)
Definition property (s : option string) : JS.value :=
  match s with
  | Some s => JS.VString s
  | None => JS.undefined
  end.

(** The literal [{description: .., desc: .., specs: ..}] with any of the
    three properties left out. *)
Definition literal (description desc specs : option string) : Details.t :=
  {| Details.description := property description;
     Details.desc := property desc;
     Details.specs := property specs |}.

Definition orEmpty (s : option string) : string :=
  match s with
  | Some s => s
  | None => EmptyString
  end.

(** ** Sample worlds *)

Definition hitAt (d : Q) : Geometry := fun _ => [d].
Definition missed : Geometry := fun _ => [].

Definition viewport : Window := mkWindow 800 600.

(** The camera as [init] sets it up for the sample viewport. *)
Definition initialCamera : Camera :=
  let aspect := innerWidth viewport / innerHeight viewport in
  {| left := - halfFrustum * aspect;
     right := halfFrustum * aspect;
     top := halfFrustum;
     bottom := - halfFrustum;
     near := 0.1;
     far := 1000;
     cameraPosition := Vector3.mk 12 12 12 |}.

Definition blankDocument : Document :=
  mkDocument [] EmptyString EmptyString EmptyString.

Definition worldOf (scene : Object3D) (d : Document) : World :=
  {| window := viewport;
     document := d;
     scene := scene;
     camera := initialCamera;
     rendererSize := (innerWidth viewport, innerHeight viewport);
     raycaster := None;
     mouse := Vector2.mk 0 0 |}.

Definition centreClick : MouseEvent := mkMouseEvent 400 300.

(** The window alone in the scene; the ray meets the first pane at 5 and
    the main frame behind it at 6. *)
Definition firstPane (i j : nat) : Geometry :=
  if (Nat.eqb i 0 && Nat.eqb j 0)%bool then hitAt 5 else missed.

Definition windowScene : Object3D :=
  addWindow (hitAt 6) firstPane (hitAt 6) Scene.

(** The same, with a ray that meets the first pane only. *)
Definition paneOnlyScene : Object3D :=
  addWindow missed firstPane missed Scene.

(** The back run with the kettle on it: the ray meets the kettle at 4, the
    countertop at 5 and the cabinet at 6. *)
Definition kettleScene : Object3D :=
  add (kettle (hitAt 4))
      (add (counterBack (hitAt 5))
           (add (baseCabinetBack (hitAt 6)) Scene)).

(** A panel that shows something already. *)
Definition shownDocument : Document :=
  mkDocument ["panel"; "visible"]%string "Toaster" "Two-slice toaster."
             "Specifications: Color: Yellow".

(** A node with an empty name. *)
Definition nameless : Object3D :=
  createComponent (hitAt 3) "matAppliance" (Vector3.mk 0 0 0)
                  (JS.VString EmptyString) None.

Definition windowGroup : Object3D := nth 1 (children windowScene) Scene.
Definition windowMainFrame : Object3D := nth 0 (children windowGroup) Scene.
Definition windowFirstPane : Object3D := nth 0 (children windowMainFrame) Scene.

Definition paneOnlyGroup : Object3D := nth 1 (children paneOnlyScene) Scene.
Definition paneOnlyMainFrame : Object3D := nth 0 (children paneOnlyGroup) Scene.
Definition paneOnlyFirstPane : Object3D :=
  nth 0 (children paneOnlyMainFrame) Scene.

Definition windowWorld : World := worldOf windowScene blankDocument.
Definition paneOnlyWorld : World := worldOf paneOnlyScene shownDocument.
Definition kettleWorld : World := worldOf kettleScene blankDocument.
Definition kettleWorldShown : World := worldOf kettleScene shownDocument.
Definition namelessWorld : World := worldOf (add nameless Scene) blankDocument.

(** The tag of the kettle, written out. *)
Definition kettleTag : UserData.t :=
  {| UserData.isComponent := JS.VBool true;
     UserData.name := JS.VString "Kettle";
     UserData.details := JS.VString "Electric kettle.";
     UserData.desc := JS.undefined;
     UserData.specs := JS.VString "Color: Blue" |}.

(** ** Notions the properties are stated with *)

(** A node carries a Component Tag when the test of the click handler
    succeeds on it. *)
Definition tagged (o : Object3D) : bool :=
  JS.truthy (UserData.isComponent (userData o)).

(** The ray of a click. *)
Definition clickRay (event : MouseEvent) (w : World) : Ray :=
  setFromCamera (ndc event (window w)) (camera w).

(** The raw intersection list of a click, before the filter. *)
Definition struck (event : MouseEvent) (w : World) : list Intersection :=
  intersectObjects (clickRay event w) (scene w).

(** ** Facts about the sort *)

Definition nearer (a b : Intersection) : Prop := distance a <= distance b.

Lemma insert_perm (i : Intersection) (l : list Intersection) :
  Permutation (insert i l) (i :: l).
Proof.
  induction l as [|j l IH]; simpl.
  - apply Permutation_refl.
  - destruct (ascSort i j).
    + apply Permutation_refl.
    + eapply perm_trans; [apply perm_skip, IH | apply perm_swap].
Qed.

Lemma sort_perm (l : list Intersection) : Permutation (sort l) l.
Proof.
  induction l as [|i l IH]; simpl.
  - constructor.
  - eapply perm_trans; [apply insert_perm | apply perm_skip, IH].
Qed.

Lemma sort_In (i : Intersection) (l : list Intersection) :
  In i (sort l) <-> In i l.
Proof.
  split; apply Permutation_in;
    [apply sort_perm | apply Permutation_sym, sort_perm].
Qed.

Lemma ascSort_false (a b : Intersection) : ascSort a b = false -> nearer b a.
Proof.
  unfold ascSort, nearer. intros H.
  destruct (Qlt_le_dec (distance b) (distance a)) as [Hlt|Hle].
  - apply Qlt_le_weak, Hlt.
  - apply Qle_bool_iff in Hle. congruence.
Qed.

Lemma insert_sorted (i : Intersection) (l : list Intersection) :
  StronglySorted nearer l -> StronglySorted nearer (insert i l).
Proof.
  induction 1 as [|j l Hs IH Hj]; simpl.
  - repeat constructor.
  - destruct (ascSort i j) eqn:E.
    + constructor; [constructor; assumption|].
      apply Qle_bool_iff in E. constructor; [exact E|].
      eapply Forall_impl; [|exact Hj].
      intros k Hk. unfold nearer in *. eapply Qle_trans; eassumption.
    + constructor; [exact IH|].
      apply (Permutation_Forall (Permutation_sym (insert_perm i l))).
      constructor; [apply ascSort_false, E | exact Hj].
Qed.

Lemma sort_sorted (l : list Intersection) : StronglySorted nearer (sort l).
Proof.
  induction l as [|i l IH]; simpl.
  - constructor.
  - apply insert_sorted, IH.
Qed.

Lemma filter_sorted (f : Intersection -> bool) (l : list Intersection) :
  StronglySorted nearer l -> StronglySorted nearer (filter f l).
Proof.
  induction 1 as [|j l Hs IH Hj]; simpl.
  - constructor.
  - destruct (f j).
    + constructor; [exact IH|].
      apply Forall_forall. intros k Hk. apply filter_In in Hk.
      rewrite Forall_forall in Hj. apply Hj, Hk.
    + exact IH.
Qed.

Lemma sorted_head_nearest (i : Intersection) (l : list Intersection) :
  StronglySorted nearer (i :: l) -> forall j, In j (i :: l) -> nearer i j.
Proof.
  intros H j [<-|Hj].
  - apply Qle_refl.
  - inversion H as [|? ? _ Hall]; subst.
    rewrite Forall_forall in Hall. apply Hall, Hj.
Qed.

(** ** Facts about the traversal *)

Lemma intersectObject_unfold (ray : Ray) (p : option Object3D) (o : Object3D) :
  intersectObject ray p o =
  (if visible o
   then map (fun d => mkIntersection d o p) (raycast o ray)
   else [])
  ++ flat_map (intersectObject ray (Some o)) (children o).
Proof. destruct o; reflexivity. Qed.

Lemma traverse_unfold (o : Object3D) :
  traverse o = o :: flat_map traverse (children o).
Proof. destruct o; reflexivity. Qed.

(** An entry is either a hit of the node itself, with the parent handed
    down, or an entry of one of its children, whose parent is the node. *)
Lemma intersectObject_In (ray : Ray) (p : option Object3D) (o : Object3D)
      (i : Intersection) :
  In i (intersectObject ray p o) <->
  (visible o = true /\ In (distance i) (raycast o ray) /\
   object i = o /\ parent i = p) \/
  (exists c, In c (children o) /\ In i (intersectObject ray (Some o) c)).
Proof.
  rewrite intersectObject_unfold, in_app_iff, in_flat_map.
  apply or_iff_compat_r.
  destruct (visible o); simpl.
  - rewrite in_map_iff. split.
    + intros (d & <- & Hd). simpl. auto.
    + intros (_ & Hd & Ho & Hp). exists (distance i). split; [|exact Hd].
      destruct i; simpl in *; subst; reflexivity.
  - split; [tauto | intros (H & _); discriminate].
Qed.

Lemma traverse_self (o : Object3D) : In o (traverse o).
Proof. rewrite traverse_unfold. left. reflexivity. Qed.

Lemma traverse_child (o c q : Object3D) :
  In c (children o) -> In q (traverse c) -> In q (traverse o).
Proof.
  intros Hc Hq. rewrite traverse_unfold. right.
  apply in_flat_map. exists c. auto.
Qed.

(** Every entry is a visible node of the tree, hit by the ray, and its
    parent is the node that holds it, or the parent handed down for the
    root. *)
Lemma intersectObject_entry (ray : Ray) (o : Object3D) :
  forall (p : option Object3D) (i : Intersection),
    In i (intersectObject ray p o) ->
    visible (object i) = true /\
    In (distance i) (raycast (object i) ray) /\
    In (object i) (traverse o) /\
    ((object i = o /\ parent i = p) \/
     (exists q, In q (traverse o) /\ parent i = Some q /\
                In (object i) (children q))).
Proof.
  induction o as [o IH] using Object3D_tree_ind.
  intros p i Hi. apply intersectObject_In in Hi.
  destruct Hi as [(Hv & Hd & Ho & Hp) | (c & Hc & Hi)].
  - rewrite Ho. repeat split; auto using traverse_self.
  - rewrite Forall_forall in IH.
    destruct (IH c Hc _ _ Hi) as (Hv & Hd & Ht & Hpar).
    repeat split; auto.
    + eapply traverse_child; eassumption.
    + right. destruct Hpar as [(Ho & Hp) | (q & Hq & Hp & Hch)].
      * exists o. rewrite Ho. auto using traverse_self.
      * exists q. split; [eapply traverse_child; eassumption | auto].
Qed.

Lemma intersectObjects_In (ray : Ray) (scene : Object3D) (i : Intersection) :
  In i (intersectObjects ray scene) <->
  exists c, In c (children scene) /\ In i (intersectObject ray (Some scene) c).
Proof.
  unfold intersectObjects. rewrite sort_In, in_flat_map. reflexivity.
Qed.

Lemma intersectObjects_entry (ray : Ray) (scene : Object3D) (i : Intersection) :
  In i (intersectObjects ray scene) ->
  visible (object i) = true /\
  In (distance i) (raycast (object i) ray) /\
  exists q, In q (traverse scene) /\ parent i = Some q /\
            In (object i) (children q).
Proof.
  intros Hi. apply intersectObjects_In in Hi. destruct Hi as (c & Hc & Hi).
  destruct (intersectObject_entry _ _ _ _ Hi) as (Hv & Hd & Ht & Hpar).
  repeat split; auto.
  destruct Hpar as [(Ho & Hp) | (q & Hq & Hp & Hch)].
  - exists scene. rewrite Ho. auto using traverse_self.
  - exists q. split; [eapply traverse_child; eassumption | auto].
Qed.

Lemma intersectObjects_node (ray : Ray) (scene : Object3D) (i : Intersection) :
  In i (intersectObjects ray scene) -> In (object i) (traverse scene).
Proof.
  intros Hi. apply intersectObjects_In in Hi. destruct Hi as (c & Hc & Hi).
  destruct (intersectObject_entry _ _ _ _ Hi) as (_ & _ & Ht & _).
  eapply traverse_child; eassumption.
Qed.

Lemma intersectObjects_sorted (ray : Ray) (scene : Object3D) :
  StronglySorted nearer (intersectObjects ray scene).
Proof. apply sort_sorted. Qed.

(** ** Facts about the filter and the resolution *)

Lemma isClickable_iff (i : Intersection) :
  isClickable i = true <->
  tagged (object i) = true \/
  exists p, parent i = Some p /\ tagged p = true.
Proof.
  unfold isClickable, clickable, tagged, JS.or.
  destruct (JS.truthy (UserData.isComponent (userData (object i)))) eqn:E.
  - rewrite E. tauto.
  - destruct (parent i) as [p|]; simpl.
    + split; [intros H; right; exists p; auto|].
      intros [H | (q & Hq & H)]; [discriminate|]. congruence.
    + split; [discriminate|].
      intros [H | (q & Hq & H)]; discriminate.
Qed.

Lemma intersects_In (event : MouseEvent) (w : World) (i : Intersection) :
  In i (intersects event w) <-> In i (struck event w) /\ isClickable i = true.
Proof. unfold intersects, struck, clickRay. apply filter_In. Qed.

Lemma intersects_sorted (event : MouseEvent) (w : World) :
  StronglySorted nearer (intersects event w).
Proof. apply filter_sorted, intersectObjects_sorted. Qed.

(** What the handler reads off one entry. *)
Lemma resolve_clickable (i : Intersection) (l : list Intersection) :
  isClickable i = true ->
  (tagged (object i) = true /\
   resolve (i :: l) = Normal (Some (userData (object i)))) \/
  (tagged (object i) = false /\
   exists p, parent i = Some p /\ tagged p = true /\
             resolve (i :: l) = Normal (Some (userData p))).
Proof.
  intros H. apply isClickable_iff in H. unfold resolve, tagged in *.
  destruct (JS.truthy (UserData.isComponent (userData (object i)))) eqn:E.
  - left. auto.
  - right. split; [reflexivity|].
    destruct H as [H | (p & Hp & H)]; [discriminate|].
    exists p. rewrite Hp. auto.
Qed.

(** The handler never reads the [userData] of a [null] parent. *)
Lemma pick_returns (event : MouseEvent) (w : World) :
  exists r, pick event w = Normal r.
Proof.
  unfold pick. destruct (intersects event w) as [|i l] eqn:E.
  - exists None. reflexivity.
  - assert (Hi : In i (intersects event w)) by (rewrite E; left; reflexivity).
    apply intersects_In in Hi. destruct Hi as (_ & Hc).
    destruct (resolve_clickable i l Hc) as [(_ & H) | (_ & p & _ & _ & H)];
      rewrite H; eauto.
Qed.

(** The handler in terms of the resolution: it returns, leaves the window,
    the scene, the camera and the renderer alone, records the pointer and
    the ray, and shows or hides the panel. *)
Lemma onMouseClick_pick (event : MouseEvent) (w : World)
      (r : option UserData.t) :
  pick event w = Normal r ->
  onMouseClick event w =
  Normal {| window := window w;
            document :=
              match r with
              | Some userData => displayComponentInfo userData (document w)
              | None => hideComponentInfo (document w)
              end;
            scene := scene w;
            camera := camera w;
            rendererSize := rendererSize w;
            raycaster := Some (clickRay event w);
            mouse := ndc event (window w) |}.
Proof.
  unfold pick, intersects, onMouseClick, clickRay. intros ->.
  destruct r; reflexivity.
Qed.

Lemma pick_same_view (e1 e2 : MouseEvent) (w1 w2 : World) :
  ndc e1 (window w1) = ndc e2 (window w2) ->
  camera w1 = camera w2 ->
  scene w1 = scene w2 ->
  pick e1 w1 = pick e2 w2.
Proof.
  unfold pick, intersects. intros -> -> ->. reflexivity.
Qed.

(** ** Facts about the class list *)

Lemma classList_contains_add (t : string) (l : list string) :
  classList_contains t (classList_add t l) = true.
Proof.
  unfold classList_contains, classList_add.
  destruct (existsb (String.eqb t) l) eqn:E; [exact E|].
  rewrite existsb_app. simpl. rewrite String.eqb_refl.
  rewrite E. reflexivity.
Qed.

Lemma classList_add_idem (t : string) (l : list string) :
  classList_add t (classList_add t l) = classList_add t l.
Proof.
  unfold classList_add at 1.
  fold (classList_contains t (classList_add t l)).
  rewrite classList_contains_add. reflexivity.
Qed.

Lemma classList_contains_remove (t : string) (l : list string) :
  classList_contains t (classList_remove t l) = false.
Proof.
  unfold classList_contains, classList_remove.
  induction l as [|c l IH]; simpl; [reflexivity|].
  destruct (String.eqb t c) eqn:E; simpl; [exact IH|].
  rewrite E. exact IH.
Qed.

Lemma displayComponentInfo_idem (data : UserData.t) (d : Document) :
  displayComponentInfo data (displayComponentInfo data d) =
  displayComponentInfo data d.
Proof.
  unfold displayComponentInfo. simpl. rewrite classList_add_idem. reflexivity.
Qed.

(** ** Tag attachment: the details field *)

(** C4: the [details] of the tag that [createComponent] attaches is the
    payload's [description] when that is neither [null] nor absent, else
    the payload's [desc] when that is neither [null] nor absent, else the
    empty string. *)
Theorem createComponent_details
        (geometry : Geometry) (material : Material) (position : Vector3.t)
        (name : JS.value) (details : option Details.t) :
  let tag := userData (createComponent geometry material position name details) in
  let description := optChain details Details.description in
  let desc := optChain details Details.desc in
  (JS.nullish description = false -> UserData.details tag = description) /\
  (JS.nullish description = true -> JS.nullish desc = false ->
   UserData.details tag = desc) /\
  (JS.nullish description = true -> JS.nullish desc = true ->
   UserData.details tag = JS.VString EmptyString).
Proof.
  cbv zeta. unfold createComponent. simpl. unfold JS.coalesce.
  repeat split; intros; repeat match goal with H : _ = _ |- _ => rewrite H end;
    reflexivity.
Qed.

(** ** Pick resolution: filter and one-level fallback *)

(** C2: the filtered list of a click holds exactly the struck entries whose
    node is tagged or whose immediate parent is tagged; its first entry is
    the nearest of them, and the click resolves to that node's own tag when
    the node is tagged, and to the tag of its immediate parent, the node
    that holds it in the tree, only when it is not. *)
Theorem pick_keeps_tagged_or_parent_tagged (event : MouseEvent) (w : World) :
  (forall i,
      In i (intersects event w) <->
      In i (struck event w) /\
      (tagged (object i) = true \/
       exists p, parent i = Some p /\ tagged p = true)) /\
  (forall i rest,
      intersects event w = i :: rest ->
      (forall j, In j (intersects event w) -> distance i <= distance j) /\
      (tagged (object i) = true ->
       pick event w = Normal (Some (userData (object i)))) /\
      (tagged (object i) = false ->
       exists p, parent i = Some p /\ In (object i) (children p) /\
                 In p (traverse (scene w)) /\ tagged p = true /\
                 pick event w = Normal (Some (userData p)))).
Proof.
  split.
  - intros i. rewrite intersects_In, isClickable_iff. reflexivity.
  - intros i rest E.
    assert (Hi : In i (intersects event w)) by (rewrite E; left; reflexivity).
    apply intersects_In in Hi. destruct Hi as (Hs & Hc).
    split; [|split].
    + intros j Hj. rewrite E in Hj.
      apply (sorted_head_nearest i rest); [|exact Hj].
      rewrite <- E. apply intersects_sorted.
    + intros Ht. unfold pick. rewrite E.
      destruct (resolve_clickable i rest Hc) as [(_ & H) | (Hf & _)];
        [exact H | congruence].
    + intros Hf. unfold pick. rewrite E.
      destruct (resolve_clickable i rest Hc)
        as [(Ht & _) | (_ & p & Hp & Htp & H)]; [congruence|].
      exists p. repeat split; auto.
      * destruct (intersectObjects_entry _ _ _ Hs)
          as (_ & _ & q & _ & Hq & Hch).
        congruence.
      * destruct (intersectObjects_entry _ _ _ Hs)
          as (_ & _ & q & Hin & Hq & _).
        congruence.
Qed.

(** The first entry of the filtered list is the nearest of the entries
    that pass the filter, and the click resolves to its own tag, or to the
    tag of its immediate parent when it has none. *)
Lemma pick_nearest_survivor (event : MouseEvent) (w : World)
      (i : Intersection) (rest : list Intersection) :
  intersects event w = i :: rest ->
  (forall j, In j (intersects event w) -> distance i <= distance j) /\
  (tagged (object i) = true ->
   pick event w = Normal (Some (userData (object i)))) /\
  (tagged (object i) = false ->
   exists p, parent i = Some p /\ In (object i) (children p) /\
             tagged p = true /\
             pick event w = Normal (Some (userData p))).
Proof.
  intros E.
  assert (Hi : In i (intersects event w)) by (rewrite E; left; reflexivity).
  apply intersects_In in Hi. destruct Hi as (Hs & Hc).
  split; [|split].
  - intros j Hj. rewrite E in Hj.
    apply (sorted_head_nearest i rest); [|exact Hj].
    rewrite <- E. apply intersects_sorted.
  - intros Ht. unfold pick. rewrite E.
    destruct (resolve_clickable i rest Hc) as [(_ & H) | (Hf & _)];
      [exact H | congruence].
  - intros Hf. unfold pick. rewrite E.
    destruct (resolve_clickable i rest Hc)
      as [(Ht & _) | (_ & p & Hp & Htp & H)]; [congruence|].
    exists p. repeat split; auto.
    destruct (intersectObjects_entry _ _ _ Hs) as (_ & _ & q & _ & Hq & Hch).
    congruence.
Qed.

(** C3: an entry whose node is untagged and whose immediate parent is
    untagged never reaches the filtered list, whatever its grandparent
    carries; when every struck entry is of that kind the click resolves to
    none; and when some struck entry passes the filter the click resolves
    to the tag of the nearest entry that passes it: that node's own tag,
    or its immediate parent's when the node has none. *)
Theorem ancestor_fallback_one_level (event : MouseEvent) (w : World) :
  (forall i,
      In i (struck event w) ->
      tagged (object i) = false ->
      (forall p, parent i = Some p -> tagged p = false) ->
      ~ In i (intersects event w)) /\
  ((forall i,
       In i (struck event w) ->
       tagged (object i) = false /\
       (forall p, parent i = Some p -> tagged p = false)) ->
   intersects event w = [] /\ pick event w = Normal None) /\
  (forall i rest,
      intersects event w = i :: rest ->
      (In i (struck event w) /\
       (tagged (object i) = true \/
        exists p, parent i = Some p /\ tagged p = true)) /\
      (forall j, In j (intersects event w) -> distance i <= distance j) /\
      (tagged (object i) = true ->
       pick event w = Normal (Some (userData (object i)))) /\
      (tagged (object i) = false ->
       exists p, parent i = Some p /\ In (object i) (children p) /\
                 tagged p = true /\
                 pick event w = Normal (Some (userData p)))).
Proof.
  assert (drop : forall i,
             tagged (object i) = false ->
             (forall p, parent i = Some p -> tagged p = false) ->
             ~ In i (intersects event w)).
  { intros i Hn Hp Hi. apply intersects_In in Hi. destruct Hi as (_ & Hc).
    apply isClickable_iff in Hc. destruct Hc as [Hc | (p & Hq & Hc)].
    - congruence.
    - specialize (Hp p Hq). congruence. }
  split; [|split].
  - intros i _. apply drop.
  - intros Hall.
    assert (Hnone : forall i, ~ In i (intersects event w)).
    { intros i Hi. pose proof (proj1 (intersects_In event w i) Hi) as (Hs & _).
      destruct (Hall i Hs) as (Hn & Hp). exact (drop i Hn Hp Hi). }
    assert (E : intersects event w = []).
    { destruct (intersects event w) as [|i l]; [reflexivity|].
      exfalso. apply (Hnone i). left. reflexivity. }
    split; [exact E|]. unfold pick. rewrite E. reflexivity.
  - intros i rest E. split.
    + assert (Hi : In i (intersects event w))
        by (rewrite E; left; reflexivity).
      apply intersects_In in Hi. destruct Hi as (Hs & Hc).
      split; [exact Hs | apply isClickable_iff, Hc].
    + apply (pick_nearest_survivor event w i rest E).
Qed.

(** ** A miss *)

(** C5: when no entry survives the filter the click resolves to none and
    the handler hides the panel, whatever the panel showed before; the
    selection state is then [Empty]. *)
Theorem miss_hides_panel (event : MouseEvent) (w : World) :
  intersects event w = [] ->
  pick event w = Normal None /\
  exists w',
    onMouseClick event w = Normal w' /\
    document w' = hideComponentInfo (document w) /\
    classList_contains "visible" (infoPanel (document w')) = false /\
    selection (document w') = Empty.
Proof.
  intros E.
  assert (Hp : pick event w = Normal None) by (unfold pick; rewrite E; reflexivity).
  split; [exact Hp|].
  eexists. split; [apply (onMouseClick_pick _ _ _ Hp)|]. simpl.
  split; [reflexivity|].
  unfold selection. simpl. rewrite classList_contains_remove. auto.
Qed.

(** A ray that meets no node of the tree leaves the filtered list empty. *)
Lemma miss_everything (event : MouseEvent) (w : World) :
  (forall o, In o (traverse (scene w)) -> raycast o (clickRay event w) = []) ->
  intersects event w = [].
Proof.
  intros Hmiss. destruct (intersects event w) as [|i l] eqn:E; [reflexivity|].
  exfalso.
  assert (Hi : In i (intersects event w)) by (rewrite E; left; reflexivity).
  apply intersects_In in Hi. destruct Hi as (Hs & _).
  destruct (intersectObjects_entry _ _ _ Hs) as (_ & Hd & _).
  rewrite (Hmiss (object i)) in Hd; [exact Hd|].
  apply intersectObjects_node in Hs. exact Hs.
Qed.

(** ** The kettle *)

(** C6: the kettle carries the tag with name "Kettle", details "Electric
    kettle." and specs "Color: Blue"; a click whose ray meets the kettle
    nearer than every other candidate resolves to exactly that tag, and
    the panel then shows "Kettle", "Electric kettle." and
    "Specifications: Color: Blue". *)
Theorem kettle_click_shows_kettle
        (geometry : Geometry) (event : MouseEvent) (w : World)
        (i : Intersection) :
  In i (intersects event w) ->
  object i = kettle geometry ->
  (forall j, In j (intersects event w) ->
             object j = object i \/ distance i < distance j) ->
  userData (kettle geometry) = kettleTag /\
  pick event w = Normal (Some kettleTag) /\
  exists w',
    onMouseClick event w = Normal w' /\
    detailName (document w') = "Kettle"%string /\
    detailDesc (document w') = "Electric kettle."%string /\
    detailSpecs (document w') = "Specifications: Color: Blue"%string /\
    detailSpecs (document w') =
      String.append "Specifications: " (JS.toString (UserData.specs kettleTag)) /\
    selection (document w') =
      Showing "Kettle" "Electric kettle." "Specifications: Color: Blue".
Proof.
  intros Hi Hk Hnear.
  assert (Hp : pick event w = Normal (Some kettleTag)).
  { unfold pick. pose proof (intersects_sorted event w) as Hs.
    destruct (intersects event w) as [|h l] eqn:E; [destruct Hi|].
    assert (Hh : object h = object i).
    { destruct (Hnear h (or_introl eq_refl)) as [Hh | Hlt]; [exact Hh|].
      exfalso. apply (Qlt_not_le _ _ Hlt).
      apply (sorted_head_nearest _ _ Hs). exact Hi. }
    unfold resolve. rewrite Hh, Hk. reflexivity. }
  split; [reflexivity|]. split; [exact Hp|].
  eexists. split; [apply (onMouseClick_pick _ _ _ Hp)|]. simpl.
  repeat split.
  unfold selection. simpl. rewrite classList_contains_add. reflexivity.
Qed.

(** ** Idempotence *)

(** C8: a click that resolves to a tag leaves a world on which the same
    click changes nothing: the panel stays visible with the same three
    texts. *)
Theorem onMouseClick_idempotent
        (event : MouseEvent) (w : World) (T : UserData.t) :
  pick event w = Normal (Some T) ->
  exists w1,
    onMouseClick event w = Normal w1 /\
    onMouseClick event w1 = Normal w1 /\
    document w1 = displayComponentInfo T (document w) /\
    selection (document w1) =
      Showing (detailName (document w1)) (detailDesc (document w1))
              (detailSpecs (document w1)).
Proof.
  intros Hp. eexists. split; [apply (onMouseClick_pick _ _ _ Hp)|].
  split; [|split].
  - match goal with |- onMouseClick _ ?w1 = _ =>
      assert (Hp1 : pick event w1 = Normal (Some T))
        by (rewrite <- Hp; apply pick_same_view; reflexivity);
      rewrite (onMouseClick_pick _ _ _ Hp1)
    end.
    simpl. rewrite displayComponentInfo_idem. reflexivity.
  - reflexivity.
  - unfold selection. simpl. rewrite classList_contains_add. reflexivity.
Qed.

(** ** Resize *)

(** C9: after a resize to a viewport of positive height the camera's
    frustum is [-halfFrustum * aspect], [halfFrustum * aspect],
    [halfFrustum], [-halfFrustum] for left, right, top, bottom, with
    [aspect] the new width over the new height; so left is minus right and
    bottom is minus top. *)
Theorem onWindowResize_symmetric_frustum (w : World) :
  0 < innerHeight (window w) ->
  let c := camera (onWindowResize w) in
  let aspect := innerWidth (window w) / innerHeight (window w) in
  left c = - halfFrustum * aspect /\
  right c = halfFrustum * aspect /\
  top c = halfFrustum /\
  bottom c = - halfFrustum /\
  left c == - right c /\
  bottom c == - top c /\
  rendererSize (onWindowResize w) = (innerWidth (window w), innerHeight (window w)).
Proof.
  intros _. simpl. repeat split; ring.
Qed.

(** ** The name placeholder *)

(** C10: when a click resolves to a tag whose name is falsy, the empty
    string in particular, the panel shows "Component" as the name; a name
    that is a non-empty string is shown as it is. *)
Theorem displayComponentInfo_name_placeholder
        (event : MouseEvent) (w : World) (T : UserData.t) :
  pick event w = Normal (Some T) ->
  exists w',
    onMouseClick event w = Normal w' /\
    (JS.truthy (UserData.name T) = false ->
     detailName (document w') = "Component"%string) /\
    (UserData.name T = JS.VString EmptyString ->
     detailName (document w') = "Component"%string) /\
    (forall s, UserData.name T = JS.VString s -> s <> EmptyString ->
               detailName (document w') = s).
Proof.
  intros Hp. eexists. split; [apply (onMouseClick_pick _ _ _ Hp)|]. simpl.
  unfold JS.or. repeat split.
  - intros ->. reflexivity.
  - intros ->. reflexivity.
  - intros s -> Hs. simpl.
    destruct (String.eqb_spec s EmptyString); [contradiction|reflexivity].
Qed.

(** ** Invisible nodes and the invisible-proxy pattern *)

Lemma createComponent_tagged
      (geometry : Geometry) (material : Material) (position : Vector3.t)
      (name : JS.value) (details : option Details.t) :
  tagged (createComponent geometry material position name details) = true.
Proof. reflexivity. Qed.

(** C1: no entry of the filtered list of a click is a node whose
    visibility flag is off.  And in a scene that holds an invisible
    tag-holder made by [createComponent] and a group that carries the
    holder's [userData] over visible, untagged sub-meshes, a click whose
    ray meets one of the sub-meshes resolves to the tag of the group. *)
Theorem invisible_nodes_never_picked :
  (forall (event : MouseEvent) (w : World) (i : Intersection),
      In i (intersects event w) -> visible (object i) = true) /\
  (forall (event : MouseEvent) (w : World)
          (geometry : Geometry) (material : Material) (position : Vector3.t)
          (name : JS.value) (details : option Details.t) (group : Object3D),
      let holder :=
        set_visible false
                    (createComponent geometry material position name details) in
      children (scene w) = [holder; group] ->
      userData group = userData holder ->
      Forall (fun s => visible s = true) (children group) ->
      Forall (fun q => tagged q = false) (flat_map traverse (children group)) ->
      (exists s, In s (children group) /\ raycast s (clickRay event w) <> []) ->
      pick event w = Normal (Some (userData group))).
Proof.
  split.
  - intros event w i Hi. apply intersects_In in Hi. destruct Hi as (Hs & _).
    apply intersectObjects_entry in Hs. tauto.
  - intros event w geometry material position name details group holder
           Hscene Hdata Hvis Hplain (s & Hs & Hhit).
    assert (Hgroup : tagged group = true)
      by (unfold tagged; rewrite Hdata; reflexivity).
    rewrite Forall_forall in Hvis, Hplain.
    (* every surviving entry reads the tag of the group *)
    assert (Hread : forall i l, In i (intersects event w) ->
                                resolve (i :: l) = Normal (Some (userData group))).
    { intros i l Hi. apply intersects_In in Hi. destruct Hi as (Hi & Hc).
      apply intersectObjects_In in Hi. destruct Hi as (c & Hc0 & Hi).
      rewrite Hscene in Hc0. destruct Hc0 as [<- | [<- | []]].
      - apply intersectObject_In in Hi.
        destruct Hi as [(Hv & _) | (c & Hc1 & _)];
          [discriminate Hv | destruct Hc1].
      - apply intersectObject_In in Hi.
        destruct Hi as [(_ & _ & Ho & _) | (c & Hc1 & Hi)].
        + unfold resolve. rewrite Ho. fold (tagged group). rewrite Hgroup.
          reflexivity.
        + destruct (intersectObject_entry _ _ _ _ Hi) as (_ & _ & Ht & Hpar).
          assert (Hn : tagged (object i) = false).
          { apply Hplain, in_flat_map. exists c. auto. }
          unfold resolve. fold (tagged (object i)). rewrite Hn.
          destruct Hpar as [(_ & Hp) | (q & Hq & Hp & _)].
          * rewrite Hp. reflexivity.
          * exfalso. apply isClickable_iff in Hc.
            destruct Hc as [Hc | (p & Hp' & Hc)]; [congruence|].
            assert (p = q) by congruence. subst p.
            rewrite (Hplain q) in Hc; [discriminate|].
            apply in_flat_map. exists c. auto. }
    (* the struck sub-mesh survives the filter *)
    assert (Hsome : exists i, In i (intersects event w)).
    { destruct (raycast s (clickRay event w)) as [|d ds] eqn:E;
        [contradiction|].
      exists (mkIntersection d s (Some group)).
      apply intersects_In. split.
      - apply intersectObjects_In. exists group. split.
        + fold (clickRay event w). rewrite Hscene. right. left. reflexivity.
        + apply intersectObject_In. right. exists s. split; [exact Hs|].
          apply intersectObject_In. left. simpl.
          fold (clickRay event w). rewrite E.
          repeat split; auto. left. reflexivity.
      - apply isClickable_iff. right. exists group. auto. }
    destruct Hsome as (i0 & Hi0). unfold pick.
    destruct (intersects event w) as [|h l] eqn:E; [destruct Hi0|].
    apply Hread. left. reflexivity.
Qed.

(** ** The properties on the sample worlds *)

(** The window: the invisible holder is met by the ray and left out; the
    click on the main frame reads the tag of the group. *)
Lemma invisible_nodes_never_picked_window :
  (children (scene windowWorld) =
   [set_visible false
      (createComponent (hitAt 6) "matWindowFrame" (position windowGroup)
                       (JS.VString "Large Kitchen Window") (Some windowDetails));
    windowGroup] /\
   (exists s, In s (children windowGroup) /\
              raycast s (clickRay centreClick windowWorld) <> [])) /\
  pick centreClick windowWorld = Normal (Some (userData windowGroup)).
Proof.
  assert (Hhit : exists s, In s (children windowGroup) /\
                           raycast s (clickRay centreClick windowWorld) <> []).
  { exists windowMainFrame. split; [left; reflexivity | discriminate]. }
  split; [split; [reflexivity | exact Hhit]|].
  apply (proj2 invisible_nodes_never_picked centreClick windowWorld
               (hitAt 6) "matWindowFrame"%string (position windowGroup)
               (JS.VString "Large Kitchen Window") (Some windowDetails)
               windowGroup).
  - reflexivity.
  - reflexivity.
  - repeat constructor.
  - vm_compute. repeat constructor.
  - exact Hhit.
Defined.

Lemma pick_keeps_tagged_or_parent_tagged_window :
  intersects centreClick windowWorld =
  [mkIntersection 6 windowMainFrame (Some windowGroup)] /\
  tagged windowMainFrame = false /\
  pick centreClick windowWorld = Normal (Some (userData windowGroup)).
Proof.
  assert (E : intersects centreClick windowWorld =
              [mkIntersection 6 windowMainFrame (Some windowGroup)])
    by (vm_compute; reflexivity).
  split; [exact E|]. split; [reflexivity|].
  destruct (proj2 (pick_keeps_tagged_or_parent_tagged centreClick windowWorld)
                  _ _ E) as (_ & _ & H).
  destruct (H eq_refl) as (p & Hp & _ & _ & _ & Hpick).
  injection Hp as <-. exact Hpick.
Defined.

(** A ray that meets a pane only: the pane and the main frame above it are
    untagged, the group above the main frame is tagged, and the click
    resolves to none. *)
Lemma ancestor_fallback_one_level_pane_only :
  (struck centreClick paneOnlyWorld =
   [mkIntersection 5 paneOnlyFirstPane (Some paneOnlyMainFrame)] /\
   In paneOnlyFirstPane (children paneOnlyMainFrame) /\
   In paneOnlyMainFrame (children paneOnlyGroup) /\
   In paneOnlyGroup (children (scene paneOnlyWorld)) /\
   tagged paneOnlyGroup = true) /\
  (forall i,
      In i (struck centreClick paneOnlyWorld) ->
      tagged (object i) = false /\
      (forall p, parent i = Some p -> tagged p = false)) /\
  (intersects centreClick paneOnlyWorld = [] /\
   pick centreClick paneOnlyWorld = Normal None) /\
  (intersects centreClick windowWorld =
   [mkIntersection 6 windowMainFrame (Some windowGroup)] /\
   pick centreClick windowWorld = Normal (Some (userData windowGroup))).
Proof.
  assert (E : struck centreClick paneOnlyWorld =
              [mkIntersection 5 paneOnlyFirstPane (Some paneOnlyMainFrame)])
    by (vm_compute; reflexivity).
  assert (Hall : forall i,
             In i (struck centreClick paneOnlyWorld) ->
             tagged (object i) = false /\
             (forall p, parent i = Some p -> tagged p = false)).
  { intros i Hi. rewrite E in Hi. destruct Hi as [<- | []].
    split; [vm_compute; reflexivity|].
    intros p Hp. injection Hp as <-. vm_compute; reflexivity. }
  assert (Ew : intersects centreClick windowWorld =
               [mkIntersection 6 windowMainFrame (Some windowGroup)])
    by (vm_compute; reflexivity).
  split; [|split; [exact Hall|split]].
  - split; [exact E|].
    split; [left; reflexivity|].
    split; [left; reflexivity|].
    split; [right; left; reflexivity|].
    vm_compute; reflexivity.
  - exact (proj1 (proj2 (ancestor_fallback_one_level centreClick paneOnlyWorld))
                 Hall).
  - split; [exact Ew|].
    destruct (proj2 (proj2 (ancestor_fallback_one_level centreClick windowWorld))
                    _ _ Ew) as (_ & _ & _ & H).
    assert (Hf : tagged windowMainFrame = false) by (vm_compute; reflexivity).
    destruct (H Hf) as (p & Hp & _ & _ & Hpick).
    injection Hp as <-. exact Hpick.
Defined.

(** The window as the scene builds it: the ray meets the first pane, whose
    parent, the main frame, is untagged and whose grandparent, the group,
    is tagged, and then the main frame behind the pane.  The click
    resolves to the tag of the window. *)
Lemma window_pane_click_resolves_to_window :
  In windowGroup (children (scene windowWorld)) /\
  In windowMainFrame (children windowGroup) /\
  In windowFirstPane (children windowMainFrame) /\
  tagged windowFirstPane = false /\
  tagged windowMainFrame = false /\
  tagged windowGroup = true /\
  hd_error (struck centreClick windowWorld) =
    Some (mkIntersection 5 windowFirstPane (Some windowMainFrame)) /\
  pick centreClick windowWorld = Normal (Some (userData windowGroup)) /\
  pick centreClick windowWorld <> Normal None.
Proof.
  split; [right; left; reflexivity|].
  split; [left; reflexivity|].
  split; [left; reflexivity|].
  split; [vm_compute; reflexivity|].
  split; [vm_compute; reflexivity|].
  split; [vm_compute; reflexivity|].
  split; [vm_compute; reflexivity|].
  split; [vm_compute; reflexivity|].
  vm_compute; discriminate.
Qed.

Lemma miss_hides_panel_pane_only :
  intersects centreClick paneOnlyWorld = [] /\
  selection (document paneOnlyWorld) =
    Showing "Toaster" "Two-slice toaster." "Specifications: Color: Yellow" /\
  pick centreClick paneOnlyWorld = Normal None /\
  exists w',
    onMouseClick centreClick paneOnlyWorld = Normal w' /\
    document w' = hideComponentInfo (document paneOnlyWorld) /\
    classList_contains "visible" (infoPanel (document w')) = false /\
    selection (document w') = Empty.
Proof.
  assert (E : intersects centreClick paneOnlyWorld = [])
    by (vm_compute; reflexivity).
  split; [exact E|]. split; [reflexivity|].
  exact (miss_hides_panel centreClick paneOnlyWorld E).
Defined.

Lemma kettle_click_shows_kettle_back_run :
  List.length (intersects centreClick kettleWorld) = 3%nat /\
  pick centreClick kettleWorld = Normal (Some kettleTag) /\
  exists w',
    onMouseClick centreClick kettleWorld = Normal w' /\
    detailName (document w') = "Kettle"%string /\
    detailDesc (document w') = "Electric kettle."%string /\
    detailSpecs (document w') = "Specifications: Color: Blue"%string /\
    detailSpecs (document w') =
      String.append "Specifications: " (JS.toString (UserData.specs kettleTag)) /\
    selection (document w') =
      Showing "Kettle" "Electric kettle." "Specifications: Color: Blue".
Proof.
  split; [vm_compute; reflexivity|].
  apply (kettle_click_shows_kettle
           (hitAt 4) centreClick kettleWorld
           (mkIntersection 4 (kettle (hitAt 4)) (Some kettleScene))).
  - vm_compute. left. reflexivity.
  - reflexivity.
  - intros j Hj. vm_compute in Hj.
    destruct Hj as [<- | [<- | [<- | []]]];
      [left; reflexivity | right; reflexivity | right; reflexivity].
Defined.

Lemma onMouseClick_idempotent_kettle :
  pick centreClick kettleWorld = Normal (Some kettleTag) /\
  exists w1,
    onMouseClick centreClick kettleWorld = Normal w1 /\
    onMouseClick centreClick w1 = Normal w1 /\
    document w1 = displayComponentInfo kettleTag (document kettleWorld) /\
    selection (document w1) =
      Showing (detailName (document w1)) (detailDesc (document w1))
              (detailSpecs (document w1)).
Proof.
  assert (Hp : pick centreClick kettleWorld = Normal (Some kettleTag))
    by (vm_compute; reflexivity).
  split; [exact Hp|].
  exact (onMouseClick_idempotent centreClick kettleWorld kettleTag Hp).
Defined.

Lemma onWindowResize_symmetric_frustum_viewport :
  0 < innerHeight (window kettleWorld) /\
  left (camera (onWindowResize kettleWorld)) == - (32 # 3) /\
  right (camera (onWindowResize kettleWorld)) == 32 # 3 /\
  top (camera (onWindowResize kettleWorld)) == 8 /\
  bottom (camera (onWindowResize kettleWorld)) == - 8.
Proof.
  assert (H : 0 < innerHeight (window kettleWorld)) by reflexivity.
  split; [exact H|].
  destruct (onWindowResize_symmetric_frustum kettleWorld H)
    as (Hl & Hr & Ht & Hb & _).
  rewrite Hl, Hr, Ht, Hb. repeat split; reflexivity.
Defined.

Lemma displayComponentInfo_name_placeholder_nameless :
  pick centreClick namelessWorld = Normal (Some (userData nameless)) /\
  UserData.name (userData nameless) = JS.VString EmptyString /\
  exists w',
    onMouseClick centreClick namelessWorld = Normal w' /\
    detailName (document w') = "Component"%string.
Proof.
  assert (Hp : pick centreClick namelessWorld = Normal (Some (userData nameless)))
    by (vm_compute; reflexivity).
  split; [exact Hp|]. split; [reflexivity|].
  destruct (displayComponentInfo_name_placeholder centreClick namelessWorld
              (userData nameless) Hp)
    as (w' & Hw & _ & Hempty & _).
  exists w'. split; [exact Hw | exact (Hempty eq_refl)].
Defined.

Lemma createComponent_details_kettle :
  UserData.details (userData (kettle (hitAt 4))) = JS.VString "Electric kettle." /\
  UserData.details (userData windowGroup) =
    JS.VString "Multi-pane crittall-style window providing ample natural light." /\
  UserData.details (userData nameless) = JS.VString EmptyString.
Proof.
  split; [|split].
  - apply (proj1 (proj2 (createComponent_details
                           (hitAt 4) "matAccentBlue"%string
                           (Vector3.mk (sinkX + 0.9) (counterTopY + 0.11)
                                       (backRunZ + 0.05))
                           (JS.VString "Kettle")
                           (Some (Details.mk JS.undefined
                                             (JS.VString "Electric kettle.")
                                             (JS.VString "Color: Blue"))))));
      reflexivity.
  - apply (proj1 (createComponent_details
                    (hitAt 6) "matWindowFrame"%string (position windowGroup)
                    (JS.VString "Large Kitchen Window") (Some windowDetails))).
    reflexivity.
  - apply (proj2 (proj2 (createComponent_details
                           (hitAt 3) "matAppliance"%string (Vector3.mk 0 0 0)
                           (JS.VString EmptyString) None)));
      reflexivity.
Defined.

(** ** Further properties of the resolution *)

(** Whatever list the raycaster hands over, the handler's read of
    [object.parent.userData] is safe behind the filter: the resolution
    returns; it is none exactly when no entry passes the test, and a tag it
    yields has a truthy [isComponent] and is the [userData] of the node of
    an entry or of its parent. *)
Theorem resolve_filter_safe (l : list Intersection) :
  (exists r, resolve (filter isClickable l) = Normal r) /\
  (resolve (filter isClickable l) = Normal None <->
   Forall (fun i => isClickable i = false) l) /\
  (forall T,
      resolve (filter isClickable l) = Normal (Some T) ->
      JS.truthy (UserData.isComponent T) = true /\
      exists i, In i l /\
                (T = userData (object i) \/
                 exists p, parent i = Some p /\ T = userData p)).
Proof.
  destruct (filter isClickable l) as [|i k] eqn:E.
  - split; [exists None; reflexivity|]. split.
    + split; [|reflexivity]. intros _. apply Forall_forall. intros i Hi.
      destruct (isClickable i) eqn:Hc; [|reflexivity].
      assert (H : In i (filter isClickable l)) by (apply filter_In; auto).
      rewrite E in H. destruct H.
    + intros T H. discriminate H.
  - assert (Hi : In i (filter isClickable l)) by (rewrite E; left; reflexivity).
    apply filter_In in Hi. destruct Hi as (Hi & Hc).
    destruct (resolve_clickable i k Hc)
      as [(Ht & H) | (Hf & p & Hp & Htp & H)]; rewrite H.
    + split; [eauto|]. split.
      * split; [discriminate|]. intros Hall. rewrite Forall_forall in Hall.
        rewrite (Hall i Hi) in Hc. discriminate.
      * intros T [= <-]. split; [exact Ht|]. exists i. auto.
    + split; [eauto|]. split.
      * split; [discriminate|]. intros Hall. rewrite Forall_forall in Hall.
        rewrite (Hall i Hi) in Hc. discriminate.
      * intros T [= <-]. split; [exact Htp|]. exists i. split; [exact Hi|].
        right. exists p. auto.
Qed.

(** Without the filter the same read can fail: an untagged node without a
    parent makes the resolution throw. *)
Lemma resolve_unfiltered_throws (d : Q) (geometry : Geometry) :
  resolve [mkIntersection d (Mesh geometry "matTrim") None] = Throw "TypeError".
Proof. reflexivity. Qed.

(** Entries that fail the test do not block the click, and entries behind
    the first one that passes it do not matter: the resolution is that of
    the first passing entry alone. *)
Theorem resolve_click_through
        (front behind : list Intersection) (i : Intersection) :
  Forall (fun j => isClickable j = false) front ->
  isClickable i = true ->
  resolve (filter isClickable (front ++ i :: behind)) = resolve [i].
Proof.
  intros Hfront Hi. rewrite filter_app.
  assert (E : filter isClickable front = []).
  { induction Hfront as [|j front Hj _ IH]; simpl; [reflexivity|].
    rewrite Hj. exact IH. }
  rewrite E. simpl. rewrite Hi. reflexivity.
Qed.

(** ** Further properties of the tag attachment *)

(** Whatever the payload, and without one, the node that [createComponent]
    returns is tagged, visible, casts and receives shadows, has no child,
    sits at the given position with the given shape and carries the name as
    given; its [specs] is the payload's when that is neither [null] nor
    absent, and the empty string otherwise. *)
Theorem createComponent_tag_fields
        (geometry : Geometry) (material : Material) (position0 : Vector3.t)
        (name : JS.value) (details : option Details.t) :
  let mesh := createComponent geometry material position0 name details in
  let specs := optChain details Details.specs in
  tagged mesh = true /\
  UserData.name (userData mesh) = name /\
  (JS.nullish specs = false -> UserData.specs (userData mesh) = specs) /\
  (JS.nullish specs = true ->
   UserData.specs (userData mesh) = JS.VString EmptyString) /\
  JS.nullish (UserData.details (userData mesh)) = false /\
  JS.nullish (UserData.specs (userData mesh)) = false /\
  UserData.desc (userData mesh) = JS.undefined /\
  visible mesh = true /\ castShadow mesh = true /\ receiveShadow mesh = true /\
  position mesh = position0 /\ raycast mesh = geometry /\ children mesh = [].
Proof.
  cbv zeta. unfold createComponent. simpl. unfold JS.coalesce.
  repeat split.
  - intros ->. reflexivity.
  - intros ->. reflexivity.
  - destruct (JS.nullish (optChain details Details.description)) eqn:E1;
      [|exact E1].
    destruct (JS.nullish (optChain details Details.desc)) eqn:E2;
      [reflexivity | exact E2].
  - destruct (JS.nullish (optChain details Details.specs)) eqn:E;
      [reflexivity | exact E].
Qed.

Lemma toString_string (s : string) :
  JS.toString (JS.or (JS.VString s) (JS.VString EmptyString)) = s.
Proof.
  unfold JS.or. simpl. destruct (String.eqb s EmptyString) eqn:E; simpl.
  - apply String.eqb_eq in E. congruence.
  - reflexivity.
Qed.

Lemma textContent_string (s : string) :
  JS.textContent
    (JS.or (JS.or (JS.VString s) JS.undefined) (JS.VString EmptyString)) = s.
Proof.
  unfold JS.or. simpl. destruct (String.eqb s EmptyString) eqn:E; simpl.
  - apply String.eqb_eq in E. congruence.
  - rewrite E. reflexivity.
Qed.

(** A tag made from a name and a payload of strings is shown as it was
    given, with three exceptions: an empty name is shown as "Component"; a
    [description] that is present wins over [desc] even when it is the
    empty string; and the specs line always starts with
    "Specifications: ", also when there are no specs. *)
Theorem createComponent_display_round_trip
        (geometry : Geometry) (material : Material) (position0 : Vector3.t)
        (name : string) (description desc specs : option string)
        (d : Document) :
  let tag :=
    userData (createComponent geometry material position0 (JS.VString name)
                              (Some (literal description desc specs))) in
  let bare :=
    userData (createComponent geometry material position0 (JS.VString name)
                              None) in
  detailName (displayComponentInfo tag d) =
    (if String.eqb name EmptyString then "Component"%string else name) /\
  detailDesc (displayComponentInfo tag d) =
    match description with
    | Some s => s
    | None => orEmpty desc
    end /\
  detailSpecs (displayComponentInfo tag d) =
    String.append "Specifications: " (orEmpty specs) /\
  detailDesc (displayComponentInfo bare d) = EmptyString /\
  detailSpecs (displayComponentInfo bare d) = "Specifications: "%string /\
  selection (displayComponentInfo tag d) =
    Showing (detailName (displayComponentInfo tag d))
            (detailDesc (displayComponentInfo tag d))
            (detailSpecs (displayComponentInfo tag d)).
Proof.
  cbv zeta. repeat split.
  - cbv -[String.eqb]. destruct (String.eqb name EmptyString); reflexivity.
  - destruct description as [s|]; [|destruct desc as [s|]];
      [| | reflexivity];
      change (JS.textContent
                (JS.or (JS.or (JS.VString s) JS.undefined)
                       (JS.VString EmptyString)) = s);
      apply textContent_string.
  - destruct specs as [s|]; [|reflexivity].
    change (JS.concat "Specifications: "
                      (JS.or (JS.VString s) (JS.VString EmptyString)) =
            String.append "Specifications: " s).
    unfold JS.concat. f_equal. apply toString_string.
  - unfold selection. simpl. rewrite classList_contains_add. reflexivity.
Qed.

(** ** The panel *)

Lemma classList_contains_add_other (t c : string) (l : list string) :
  c <> t ->
  classList_contains c (classList_add t l) = classList_contains c l.
Proof.
  intros Hc. unfold classList_contains, classList_add.
  destruct (existsb (String.eqb t) l); [reflexivity|].
  rewrite existsb_app. simpl.
  destruct (String.eqb_spec c t); [contradiction|].
  rewrite !orb_false_r. reflexivity.
Qed.

Lemma classList_contains_remove_other (t c : string) (l : list string) :
  c <> t ->
  classList_contains c (classList_remove t l) = classList_contains c l.
Proof.
  intros Hc. unfold classList_contains, classList_remove.
  induction l as [|x l IH]; simpl; [reflexivity|].
  destruct (String.eqb_spec t x) as [<- | Hx]; simpl.
  - destruct (String.eqb_spec c t); [contradiction|]. exact IH.
  - rewrite IH. reflexivity.
Qed.

Lemma classList_add_NoDup (t : string) (l : list string) :
  NoDup l -> NoDup (classList_add t l).
Proof.
  intros Hl. unfold classList_add.
  destruct (existsb (String.eqb t) l) eqn:E; [exact Hl|].
  apply (Permutation_NoDup (Permutation_cons_append l t)).
  constructor; [|exact Hl].
  intros Hin.
  assert (H : existsb (String.eqb t) l = true).
  { apply existsb_exists. exists t. split; [exact Hin | apply String.eqb_refl]. }
  congruence.
Qed.

Lemma classList_remove_NoDup (t : string) (l : list string) :
  NoDup l -> NoDup (classList_remove t l).
Proof. intros Hl. apply NoDup_filter, Hl. Qed.

(** A click touches no class of the panel but [visible], and never makes
    the class list hold a token twice. *)
Theorem onMouseClick_keeps_other_classes (event : MouseEvent) (w : World) :
  exists w',
    onMouseClick event w = Normal w' /\
    (forall c, c <> "visible"%string ->
               classList_contains c (infoPanel (document w')) =
               classList_contains c (infoPanel (document w))) /\
    (NoDup (infoPanel (document w)) -> NoDup (infoPanel (document w'))).
Proof.
  destruct (pick_returns event w) as (r & Hr).
  eexists. split; [apply (onMouseClick_pick _ _ _ Hr)|]. simpl.
  destruct r as [T|]; simpl; split.
  - intros c Hc. apply classList_contains_add_other, Hc.
  - apply classList_add_NoDup.
  - intros c Hc. apply classList_contains_remove_other, Hc.
  - apply classList_remove_NoDup.
Qed.

(** What the panel shows after a click does not depend on what it showed
    before, nor on the pointer and the ray stored by an earlier click: two
    worlds with the same camera and scene, clicked at the same point, end
    in the same selection state.  A click that resolves to none hides the
    panel and leaves its three texts as they were. *)
Theorem click_panel_independent_of_history
        (e1 e2 : MouseEvent) (w1 w2 : World) :
  ndc e1 (window w1) = ndc e2 (window w2) ->
  camera w1 = camera w2 ->
  scene w1 = scene w2 ->
  exists w1' w2',
    onMouseClick e1 w1 = Normal w1' /\
    onMouseClick e2 w2 = Normal w2' /\
    selection (document w1') = selection (document w2') /\
    (pick e1 w1 = Normal None ->
     selection (document w1') = Empty /\
     detailName (document w1') = detailName (document w1) /\
     detailDesc (document w1') = detailDesc (document w1) /\
     detailSpecs (document w1') = detailSpecs (document w1)).
Proof.
  intros Hn Hc Hs.
  pose proof (pick_same_view e1 e2 w1 w2 Hn Hc Hs) as Hsame.
  destruct (pick_returns e1 w1) as (r & Hr).
  assert (Hr2 : pick e2 w2 = Normal r) by congruence.
  eexists. eexists.
  split; [apply (onMouseClick_pick _ _ _ Hr)|].
  split; [apply (onMouseClick_pick _ _ _ Hr2)|]. simpl.
  destruct r as [T|]; unfold selection; simpl.
  - rewrite !classList_contains_add. split; [reflexivity|].
    intros H. rewrite Hr in H. discriminate.
  - rewrite !classList_contains_remove. auto.
Qed.

(** ** The pointer's normalized coordinates *)

Lemma fraction_in_unit (a b : Q) :
  0 < b -> 0 <= a <= b -> 0 <= a / b <= 1.
Proof.
  intros Hb (H0 & H1). split.
  - apply Qle_shift_div_l; [exact Hb|]. lra.
  - apply Qle_shift_div_r; [exact Hb|]. lra.
Qed.

Lemma fraction_monotone (a a' b : Q) :
  0 < b -> a <= a' -> a / b <= a' / b.
Proof.
  intros Hb Ha. unfold Qdiv. apply Qmult_le_compat_r; [exact Ha|].
  apply Qinv_le_0_compat. lra.
Qed.

(** A pointer inside a viewport of positive size has both normalized
    coordinates between -1 and 1. *)
Theorem ndc_in_range (event : MouseEvent) (win : Window) :
  0 < innerWidth win ->
  0 < innerHeight win ->
  0 <= clientX event <= innerWidth win ->
  0 <= clientY event <= innerHeight win ->
  - (1) <= Vector2.x (ndc event win) <= 1 /\
  - (1) <= Vector2.y (ndc event win) <= 1.
Proof.
  intros Hw Hh Hx Hy. simpl.
  destruct (fraction_in_unit _ _ Hw Hx) as (Hx0 & Hx1).
  destruct (fraction_in_unit _ _ Hh Hy) as (Hy0 & Hy1).
  repeat split; lra.
Qed.

(** The horizontal coordinate grows with [clientX] and the vertical one
    falls as [clientY] grows: the top left corner of the viewport is
    (-1, 1), the bottom right one (1, -1) and the centre (0, 0). *)
Theorem ndc_orientation (e1 e2 : MouseEvent) (win : Window) :
  0 < innerWidth win ->
  0 < innerHeight win ->
  (clientX e1 <= clientX e2 ->
   Vector2.x (ndc e1 win) <= Vector2.x (ndc e2 win)) /\
  (clientY e1 <= clientY e2 ->
   Vector2.y (ndc e2 win) <= Vector2.y (ndc e1 win)) /\
  (Vector2.x (ndc (mkMouseEvent 0 0) win) == - (1) /\
   Vector2.y (ndc (mkMouseEvent 0 0) win) == 1) /\
  (Vector2.x (ndc (mkMouseEvent (innerWidth win) (innerHeight win)) win) == 1 /\
   Vector2.y (ndc (mkMouseEvent (innerWidth win) (innerHeight win)) win)
     == - (1)) /\
  (Vector2.x (ndc (mkMouseEvent (innerWidth win / 2) (innerHeight win / 2)) win)
     == 0 /\
   Vector2.y (ndc (mkMouseEvent (innerWidth win / 2) (innerHeight win / 2)) win)
     == 0).
Proof.
  intros Hw Hh.
  assert (Hw0 : ~ innerWidth win == 0) by lra.
  assert (Hh0 : ~ innerHeight win == 0) by lra.
  simpl. split; [|split].
  - intros H. pose proof (fraction_monotone _ _ _ Hw H). lra.
  - intros H. pose proof (fraction_monotone _ _ _ Hh H). lra.
  - repeat split; field; assumption.
Qed.

(** ** Resize and the run of events *)

(** After a resize to a viewport of positive height the frustum is as high
    as [frustumSize], whatever the size, and its width over its height is
    the width of the viewport over its height; the near and far planes and
    the camera's placement are untouched. *)
Theorem onWindowResize_keeps_proportions (w : World) :
  0 < innerHeight (window w) ->
  let c := camera (onWindowResize w) in
  let aspect := innerWidth (window w) / innerHeight (window w) in
  top c - bottom c == frustumSize /\
  right c - left c == frustumSize * aspect /\
  (right c - left c) / (top c - bottom c) == aspect /\
  near c = near (camera w) /\
  far c = far (camera w) /\
  cameraPosition c = cameraPosition (camera w).
Proof.
  intros Hh.
  assert (Hh0 : ~ innerHeight (window w) == 0) by lra.
  simpl. unfold halfFrustum, frustumSize.
  repeat split; field; assumption.
Qed.

Lemma inSync_onWindowResize (w : World) : inSync (onWindowResize w).
Proof. unfold inSync. simpl. repeat split. Qed.

Lemma inSync_init (win : Window) (page : Document) (kitchenette : Object3D) :
  inSync (init win win page kitchenette).
Proof. unfold inSync. simpl. repeat split. Qed.

(** The resize handler brings the camera and the renderer in line with the
    viewport, and changes nothing in a world where they are already in
    line: a resize event that repeats the current size is harmless.  The
    world that [init] builds is in line when the viewport at start-up is
    the one the script measured; when the viewport has changed in between,
    the first resize event turns that world into the one [init] would
    have built from the current viewport. *)
Theorem onWindowResize_sync :
  (forall w, inSync (onWindowResize w)) /\
  (forall w, inSync w -> onWindowResize w = w) /\
  (forall w, onWindowResize (onWindowResize w) = onWindowResize w) /\
  (forall win page kitchenette,
      onWindowResize (init win win page kitchenette) =
      init win win page kitchenette) /\
  (forall measured win page kitchenette,
      onWindowResize (init measured win page kitchenette) =
      init win win page kitchenette).
Proof.
  assert (fixed : forall w, inSync w -> onWindowResize w = w).
  { intros [win page sc [l r t b n f pos] size ray m]
           (Hl & Hr & Ht & Hb & Hs).
    simpl in *. unfold onWindowResize. simpl. congruence. }
  split; [exact inSync_onWindowResize|]. split; [exact fixed|]. split.
  - intros w. apply fixed, inSync_onWindowResize.
  - split.
    + intros win page kitchenette. apply fixed, inSync_init.
    + intros measured win page kitchenette. reflexivity.
Qed.

(** A start-up after the viewport has changed leaves the camera out of
    line with it. *)
Lemma init_stale_out_of_line :
  ~ inSync (init (mkWindow 800 600) (mkWindow 1024 600) blankDocument Scene).
Proof. intros (H & _). vm_compute in H. discriminate H. Qed.

(** One event keeps the scene and the camera's placement and touches no
    class of the panel but [visible].  A click leaves the window, the
    camera and the renderer's size as they are; a resize brings the camera
    and the renderer in line with the viewport. *)
Lemma dispatch_invariant (ev : Event) (w : World) :
  exists w',
    dispatch ev w = Normal w' /\
    scene w' = scene w /\
    near (camera w') = near (camera w) /\
    far (camera w') = far (camera w) /\
    cameraPosition (camera w') = cameraPosition (camera w) /\
    (forall c, c <> "visible"%string ->
               classList_contains c (infoPanel (document w')) =
               classList_contains c (infoPanel (document w))) /\
    (isClick ev ->
     window w' = window w /\ camera w' = camera w /\
     rendererSize w' = rendererSize w) /\
    (isResize ev -> inSync w').
Proof.
  destruct ev as [event | width height]; simpl.
  - destruct (pick_returns event w) as (r & Hr).
    eexists. split; [apply (onMouseClick_pick _ _ _ Hr)|].
    split; [reflexivity|].
    split; [reflexivity|]. split; [reflexivity|]. split; [reflexivity|].
    split; [|split; [intros _; repeat split | intros []]].
    intros c Hc. destruct r as [T|]; simpl.
    + apply classList_contains_add_other, Hc.
    + apply classList_contains_remove_other, Hc.
  - eexists. split; [reflexivity|].
    split; [reflexivity|].
    split; [reflexivity|]. split; [reflexivity|]. split; [reflexivity|].
    split; [intros c _; reflexivity|].
    split; [intros [] | intros _; apply inSync_onWindowResize].
Qed.

Lemma inSync_same_view (w w' : World) :
  window w' = window w -> camera w' = camera w ->
  rendererSize w' = rendererSize w ->
  inSync w -> inSync w'.
Proof. unfold inSync. intros -> -> ->. exact (fun H => H). Qed.

(** A run of events from any world: what one event keeps, the run keeps;
    the camera is in line with the viewport at the end when it was at the
    start or when a resize has come by; clicks alone leave the window, the
    camera and the renderer's size as they were. *)
Lemma run_invariant (events : list Event) :
  forall w,
  exists w',
    run events w = Normal w' /\
    scene w' = scene w /\
    near (camera w') = near (camera w) /\
    far (camera w') = far (camera w) /\
    cameraPosition (camera w') = cameraPosition (camera w) /\
    (forall c, c <> "visible"%string ->
               classList_contains c (infoPanel (document w')) =
               classList_contains c (infoPanel (document w))) /\
    (inSync w \/ Exists isResize events -> inSync w') /\
    (Forall isClick events ->
     window w' = window w /\ camera w' = camera w /\
     rendererSize w' = rendererSize w).
Proof.
  induction events as [|ev events IH]; intros w.
  - exists w. split; [reflexivity|]. split; [reflexivity|].
    split; [reflexivity|]. split; [reflexivity|]. split; [reflexivity|].
    split; [reflexivity|]. split; [|auto].
    intros [H | H]; [exact H | inversion H].
  - destruct (dispatch_invariant ev w)
      as (w1 & Hd & Hs1 & Hn1 & Hf1 & Hp1 & Hc1 & Hclick1 & Hresize1).
    destruct (IH w1) as (w' & Hr & Hs & Hn & Hf & Hp & Hc & Hsync & Hclicks).
    exists w'. simpl. rewrite Hd.
    split; [exact Hr|]. split; [congruence|].
    split; [congruence|]. split; [congruence|]. split; [congruence|].
    split; [intros c Hne; rewrite (Hc c Hne); apply Hc1, Hne|].
    split.
    + intros H. apply Hsync.
      destruct ev as [event | width height].
      * destruct (Hclick1 I) as (Hw & Hcam & Hsize).
        destruct H as [H | H].
        -- left. exact (inSync_same_view w w1 Hw Hcam Hsize H).
        -- inversion H as [? ? Hev | ? ? Htail]; subst;
             [destruct Hev | right; exact Htail].
      * left. apply Hresize1. exact I.
    + intros Hall. inversion Hall as [|? ? Hev Htail]; subst.
      destruct (Hclick1 Hev) as (Hw & Hcam & Hsize).
      destruct (Hclicks Htail) as (Hw' & Hcam' & Hsize').
      repeat split; congruence.
Qed.

(** From start-up on, whatever clicks and resizes follow one another, no
    handler throws, the scene stays the one that was built, the camera
    keeps its placement and its near and far planes, and no class of the
    panel but [visible] is added or removed.  The camera's frustum and the
    renderer's size are those of the current viewport at the end when the
    viewport at start-up was the one the script measured, or when a resize
    has come by; clicks alone never bring them in line: they leave the
    camera and the renderer's size as [init] set them. *)
Theorem run_keeps_scene_and_sync
        (measured win : Window) (page : Document) (kitchenette : Object3D)
        (events : list Event) :
  0 < innerHeight measured ->
  Forall properResize events ->
  exists w',
    run events (init measured win page kitchenette) = Normal w' /\
    scene w' = kitchenette /\
    near (camera w') = 0.1 /\
    far (camera w') = 1000 /\
    cameraPosition (camera w') = Vector3.mk 12 12 12 /\
    (forall c, c <> "visible"%string ->
               classList_contains c (infoPanel (document w')) =
               classList_contains c (infoPanel page)) /\
    (measured = win \/ Exists isResize events -> inSync w') /\
    (Forall isClick events ->
     window w' = win /\
     camera w' = camera (init measured win page kitchenette) /\
     rendererSize w' = (innerWidth measured, innerHeight measured)).
Proof.
  intros _ _.
  destruct (run_invariant events (init measured win page kitchenette))
    as (w' & Hr & Hs & Hn & Hf & Hp & Hc & Hsync & Hclicks).
  exists w'. split; [exact Hr|]. split; [exact Hs|].
  split; [exact Hn|]. split; [exact Hf|]. split; [exact Hp|].
  split; [exact Hc|]. split; [|exact Hclicks].
  intros [-> | H]; apply Hsync; [left; apply inSync_init | right; exact H].
Qed.

(** ** The window, for any shapes and any scene *)

(** [createWindow] adds one node to the scene, the invisible holder, behind
    the nodes that are there, and returns a group that carries the
    holder's tag at the holder's position over one child, the main frame
    with its twelve panes.  An entry of the main frame passes the filter
    and resolves to the window's tag; an entry of a pane does not pass
    it. *)
Theorem createWindow_structure
        (frame : Geometry) (pane : nat -> nat -> Geometry) (box : Geometry)
        (scene0 : Object3D) :
  let group := fst (createWindow frame pane box scene0) in
  let scene1 := snd (createWindow frame pane box scene0) in
  let holder :=
    set_visible false
      (createComponent box "matWindowFrame" (position group)
                       (JS.VString "Large Kitchen Window")
                       (Some windowDetails)) in
  let mainFrame := hd Scene (children group) in
  children scene1 = children scene0 ++ [holder] /\
  userData scene1 = userData scene0 /\
  children (addWindow frame pane box scene0) =
    (children scene0 ++ [holder]) ++ [group] /\
  visible holder = false /\
  userData group = userData holder /\
  UserData.name (userData group) = JS.VString "Large Kitchen Window" /\
  children group = [mainFrame] /\
  tagged mainFrame = false /\
  children mainFrame =
    flat_map (fun i => map (fun j => Mesh (pane i j) "paneMat") (seq 0 4))
             (seq 0 3) /\
  List.length (children mainFrame) = 12%nat /\
  (forall d l,
      resolve (filter isClickable
                      (mkIntersection d mainFrame (Some group) :: l)) =
      Normal (Some (userData group))) /\
  (forall d p,
      In p (children mainFrame) ->
      children p = [] /\
      isClickable (mkIntersection d p (Some mainFrame)) = false).
Proof.
  intros group scene1 holder mainFrame.
  assert (Hframe : tagged mainFrame = false) by (vm_compute; reflexivity).
  assert (Hgroup : tagged group = true) by (vm_compute; reflexivity).
  assert (Hpanes :
            children mainFrame =
            flat_map (fun i => map (fun j => Mesh (pane i j) "paneMat")
                                   (seq 0 4)) (seq 0 3))
    by (vm_compute; reflexivity).
  split; [vm_compute; reflexivity|]. split; [vm_compute; reflexivity|].
  split; [vm_compute; reflexivity|]. split; [vm_compute; reflexivity|].
  split; [vm_compute; reflexivity|]. split; [vm_compute; reflexivity|].
  split; [vm_compute; reflexivity|]. split; [exact Hframe|].
  split; [exact Hpanes|]. split; [vm_compute; reflexivity|]. split.
  - intros d l.
    assert (Hc : isClickable (mkIntersection d mainFrame (Some group)) = true).
    { apply isClickable_iff. right. exists group. auto. }
    cbn [filter]. rewrite Hc.
    destruct (resolve_clickable _ l Hc)
      as [(Ht & _) | (_ & p & Hp & _ & H)]; [cbn [object] in Ht; congruence|].
    cbn [parent] in Hp. injection Hp as <-. exact H.
  - intros d p Hp. rewrite Hpanes in Hp.
    apply in_flat_map in Hp. destruct Hp as (i & _ & Hp).
    apply in_map_iff in Hp. destruct Hp as (j & <- & _).
    split; [reflexivity|].
    apply not_true_is_false. intros H. apply isClickable_iff in H.
    destruct H as [H | (q & Hq & H)]; [discriminate H|].
    cbn [parent] in Hq. injection Hq as <-. congruence.
Qed.

(** ** The further properties on the sample worlds *)

(** The lid in front of the kettle is plain decoration: the click goes
    through it to the kettle, and the countertop behind does not matter. *)
Lemma resolve_click_through_kettle_lid :
  isClickable (mkIntersection 3 (Mesh (hitAt 3) "matAppliance") (Some Scene))
    = false /\
  resolve
    (filter isClickable
            ([mkIntersection 3 (Mesh (hitAt 3) "matAppliance") (Some Scene)]
               ++ mkIntersection 4 (kettle (hitAt 4)) (Some Scene)
               :: [mkIntersection 5 (counterBack (hitAt 5)) (Some Scene)])) =
  Normal (Some kettleTag).
Proof.
  split; [reflexivity|].
  rewrite (resolve_click_through
             [mkIntersection 3 (Mesh (hitAt 3) "matAppliance") (Some Scene)]
             [mkIntersection 5 (counterBack (hitAt 5)) (Some Scene)]
             (mkIntersection 4 (kettle (hitAt 4)) (Some Scene))).
  - reflexivity.
  - repeat constructor.
  - reflexivity.
Defined.

Lemma click_panel_independent_of_history_kettle :
  selection (document kettleWorld) <> selection (document kettleWorldShown) /\
  exists w1' w2',
    onMouseClick centreClick kettleWorld = Normal w1' /\
    onMouseClick centreClick kettleWorldShown = Normal w2' /\
    selection (document w1') = selection (document w2').
Proof.
  split; [discriminate|].
  destruct (click_panel_independent_of_history
              centreClick centreClick kettleWorld kettleWorldShown
              eq_refl eq_refl eq_refl)
    as (w1' & w2' & H1 & H2 & Hs & _).
  exists w1', w2'. auto.
Defined.

Lemma ndc_in_range_centre :
  - (1) <= Vector2.x (ndc centreClick viewport) <= 1 /\
  - (1) <= Vector2.y (ndc centreClick viewport) <= 1.
Proof.
  apply (ndc_in_range centreClick viewport).
  - reflexivity.
  - reflexivity.
  - split; discriminate.
  - split; discriminate.
Defined.

Lemma ndc_orientation_viewport :
  Vector2.x (ndc (mkMouseEvent 100 500) viewport)
    <= Vector2.x (ndc centreClick viewport) /\
  Vector2.y (ndc (mkMouseEvent 100 500) viewport)
    <= Vector2.y (ndc centreClick viewport).
Proof.
  destruct (ndc_orientation (mkMouseEvent 100 500) centreClick viewport
                            eq_refl eq_refl) as (Hx & _).
  destruct (ndc_orientation centreClick (mkMouseEvent 100 500) viewport
                            eq_refl eq_refl) as (_ & Hy & _).
  split; [apply Hx | apply Hy]; discriminate.
Defined.

Lemma onWindowResize_keeps_proportions_viewport :
  top (camera (onWindowResize kettleWorld))
    - bottom (camera (onWindowResize kettleWorld)) == 16 /\
  (right (camera (onWindowResize kettleWorld))
     - left (camera (onWindowResize kettleWorld)))
    / (top (camera (onWindowResize kettleWorld))
         - bottom (camera (onWindowResize kettleWorld))) == 4 # 3.
Proof.
  destruct (onWindowResize_keeps_proportions kettleWorld eq_refl)
    as (Hh & _ & Ha & _).
  split; [exact Hh|]. rewrite Ha. reflexivity.
Defined.

Lemma run_keeps_scene_and_sync_kettle :
  (exists w',
      run [Click centreClick; Resize 1024 768; Click (mkMouseEvent 0 0);
           Resize 1024 768]
          (init viewport (mkWindow 1024 600) shownDocument kettleScene)
        = Normal w' /\
      scene w' = kettleScene /\
      inSync w' /\
      classList_contains "panel" (infoPanel (document w')) = true) /\
  (exists w',
      run [Click centreClick; Click (mkMouseEvent 0 0)]
          (init viewport (mkWindow 1024 600) shownDocument kettleScene)
        = Normal w' /\
      window w' = mkWindow 1024 600 /\
      rendererSize w' = (800, 600)).
Proof.
  split.
  - destruct (run_keeps_scene_and_sync
                viewport (mkWindow 1024 600) shownDocument kettleScene
                [Click centreClick; Resize 1024 768; Click (mkMouseEvent 0 0);
                 Resize 1024 768])
      as (w' & Hr & Hs & _ & _ & _ & Hc & Hsync & _).
    + reflexivity.
    + repeat constructor.
    + exists w'. split; [exact Hr|]. split; [exact Hs|]. split.
      * apply Hsync. right. right. left. exact I.
      * rewrite (Hc "panel"%string); [reflexivity | discriminate].
  - destruct (run_keeps_scene_and_sync
                viewport (mkWindow 1024 600) shownDocument kettleScene
                [Click centreClick; Click (mkMouseEvent 0 0)])
      as (w' & Hr & _ & _ & _ & _ & _ & _ & Hclicks).
    + reflexivity.
    + repeat constructor.
    + destruct Hclicks as (Hw & _ & Hsize); [repeat constructor|].
      exists w'. auto.
Defined.
